(** * Blustream matrix media players: the listener and its entities

    A shallow embedding of [custom_components/blustream/media_player.py].

    The Python module is glue between a device library ([pyblustream]) and
    the host platform: one [MyListener] receives the device callbacks and
    forwards them to entity objects ([MatrixEntity] for the matrix itself,
    [MatrixOutput] for each output).  Entities are mutable objects that are
    shared by reference between the listener and the host, so the embedding
    keeps an explicit object store; exceptions, log records, the calls made
    on the device and the host's update requests are effects of a small
    state-and-exception monad. *)

From stdpp Require Import gmap strings list fin_maps.
From Stdlib Require Import ZArith.

Local Open Scope Z_scope.
Local Open Scope string_scope.
Local Open Scope list_scope.

(** ** Values, exceptions and effects *)

(** [MediaPlayerState] of the host platform; the module itself only uses
    [ON] and [OFF], and [None] for "unknown". *)
Inductive MediaPlayerState :=
  | OFF | ON | IDLE | PLAYING | PAUSED | STANDBY | BUFFERING.

(** The raw value handed to [power_changed] is untyped in the source. *)
Inductive pyval :=
  | PNone
  | PBool (b : bool)
  | PInt (z : Z)
  | PStr (s : string).

(** [v == s] for a string literal [s]: only a string with the same
    characters is equal to it. *)
Definition py_eq_str (v : pyval) (s : string) : bool :=
  match v with
  | PStr s' => String.eqb s' s
  | _ => false
  end.

(** Truthiness of an integer, as tested by [if input_id:]. *)
Definition truthy_int (z : Z) : bool := negb (Z.eqb z 0).

Inductive exn :=
  | KeyError (key : Z)
  | AttributeError (attr : string)
  | OtherError (name : string).

Inductive level := DEBUG | INFO | WARNING | ERROR.

(** The methods of the device object ([pyblustream.matrix.Matrix]) that the
    module calls. *)
Inductive method :=
  | m_register_listener
  | m_update_status
  | m_turn_on
  | m_turn_off
  | m_change_source
  | m_send_cec_power_on
  | m_send_cec_power_off
  | m_send_cec_volume_up
  | m_send_cec_volume_down
  | m_send_cec_mute.

Definition method_name (m : method) : string :=
  match m with
  | m_register_listener => "register_listener"
  | m_update_status => "update_status"
  | m_turn_on => "turn_on"
  | m_turn_off => "turn_off"
  | m_change_source => "change_source"
  | m_send_cec_power_on => "send_cec_power_on"
  | m_send_cec_power_off => "send_cec_power_off"
  | m_send_cec_volume_up => "send_cec_volume_up"
  | m_send_cec_volume_down => "send_cec_volume_down"
  | m_send_cec_mute => "send_cec_mute"
  end.

(** Object references. *)
Definition ref := nat.

(** What an execution leaves behind, in order: log records (level and format
    string), calls that reached the device, and the requests made to the
    host ([schedule_update_ha_state], [async_add_entities]). *)
Inductive event :=
  | Log (lvl : level) (fmt : string)
  | DeviceCall (m : method) (args : list Z)
  | ScheduleUpdate (entity : ref)
  | AddEntities (entities : list ref).

Definition is_device_call (ev : event) : bool :=
  match ev with
  | DeviceCall _ _ => true
  | _ => false
  end.

Definition is_error_log (ev : event) : bool :=
  match ev with
  | Log ERROR _ => true
  | _ => false
  end.

(** ** Insertion-ordered dictionaries

    [matrix_output_entities] and [outputs_by_id] are iterated, so they keep
    Python's order: a new key goes to the end, an existing key keeps its
    place and gets the new value. *)
Section dict.
Context {V : Type}.

Fixpoint dict_get (k : Z) (d : list (Z * V)) : option V :=
  match d with
  | [] => None
  | (k', v) :: d' => if decide (k = k') then Some v else dict_get k d'
  end.

Fixpoint dict_set (k : Z) (v : V) (d : list (Z * V)) : list (Z * V) :=
  match d with
  | [] => [(k, v)]
  | (k', v') :: d' =>
      if decide (k = k') then (k', v) :: d' else (k', v') :: dict_set k v d'
  end.

Definition dict_items (d : list (Z * V)) : list (Z * V) := d.
Definition dict_values (d : list (Z * V)) : list V := d.*2.
End dict.

(** ** The device object

    Only what the module reads or calls.  [inputs_by_id], [inputs_by_name]
    are the library's dictionaries (looked up, never iterated here).
    [has_method] says whether the installed library version defines the
    method at all (a missing one raises [AttributeError] on access);
    [call_result] is the exception, if any, that a call which reached the
    device ends with. *)
Record Matrix := {
  inputs_by_id : gmap Z string;
  inputs_by_name : gmap string Z;
  input_names : list string;
  outputs_by_id : list (Z * string);
  has_method : method -> bool;
  call_result : method -> list Z -> option exn;
}.

(** ** Entities *)

(** Fields of a [MatrixEntity] that the module assigns. *)
Record matrix_entity := {
  me_matrix : Matrix;
  me_attr_state : option MediaPlayerState;
}.

(** Fields of a [MatrixOutput] that the module assigns. *)
Record matrix_output := {
  output_id : Z;
  mo_matrix : Matrix;
  mo_attr_source_list : list string;
  mo_attr_state : option MediaPlayerState;
  mo_attr_source : option string;
}.

Inductive obj :=
  | ObjMatrixEntity (e : matrix_entity)
  | ObjMatrixOutput (e : matrix_output).

Definition obj_state (o : obj) : option MediaPlayerState :=
  match o with
  | ObjMatrixEntity e => me_attr_state e
  | ObjMatrixOutput e => mo_attr_state e
  end.

Definition obj_source (o : obj) : option string :=
  match o with
  | ObjMatrixEntity _ => None
  | ObjMatrixOutput e => mo_attr_source e
  end.

Definition me_with_state (st : option MediaPlayerState) (e : matrix_entity) : matrix_entity :=
  {| me_matrix := me_matrix e; me_attr_state := st |}.

Definition mo_with_state (st : option MediaPlayerState) (e : matrix_output) : matrix_output :=
  {| output_id := output_id e; mo_matrix := mo_matrix e;
     mo_attr_source_list := mo_attr_source_list e;
     mo_attr_state := st; mo_attr_source := mo_attr_source e |}.

Definition mo_with_source (src : option string) (e : matrix_output) : matrix_output :=
  {| output_id := output_id e; mo_matrix := mo_matrix e;
     mo_attr_source_list := mo_attr_source_list e;
     mo_attr_state := mo_attr_state e; mo_attr_source := src |}.

Definition obj_with_state (st : option MediaPlayerState) (o : obj) : obj :=
  match o with
  | ObjMatrixEntity e => ObjMatrixEntity (me_with_state st e)
  | ObjMatrixOutput e => ObjMatrixOutput (mo_with_state st e)
  end.

(** ** The listener and the world *)

Record my_listener := {
  matrix_output_entities : list (Z * ref);
  matrix_entities : list ref;
}.

Record World := {
  listener : my_listener;
  heap : gmap ref obj;
  trace : list event;
}.

Definition with_listener (l : my_listener) (w : World) : World :=
  {| listener := l; heap := heap w; trace := trace w |}.

Definition with_heap (h : gmap ref obj) (w : World) : World :=
  {| listener := listener w; heap := h; trace := trace w |}.

Definition with_trace (t : list event) (w : World) : World :=
  {| listener := listener w; heap := heap w; trace := t |}.

(** ** The monad

    [Raise] is a Python exception on its way up.  [Stuck] is the model's own
    outcome for a reference that denotes no object of the expected class; no
    Python execution reaches it, and the well-formedness predicate below
    rules it out. *)
Inductive result (A : Type) :=
  | Ok (a : A)
  | Raise (e : exn)
  | Stuck.
Arguments Ok {A} a.
Arguments Raise {A} e.
Arguments Stuck {A}.

Definition M (A : Type) : Type := World -> result A * World.

#[export] Instance M_ret : MRet M := fun A a w => (Ok a, w).

#[export] Instance M_bind : MBind M := fun A B f m w =>
  match m w with
  | (Ok a, w') => f a w'
  | (Raise e, w') => (Raise e, w')
  | (Stuck, w') => (Stuck, w')
  end.

Definition raise {A} (e : exn) : M A := fun w => (Raise e, w).
Definition stuck {A} : M A := fun w => (Stuck, w).

Definition emit (ev : event) : M unit :=
  fun w => (Ok (), with_trace (trace w ++ [ev]) w).

Definition log (lvl : level) (fmt : string) : M unit := emit (Log lvl fmt).

Definition get_listener : M my_listener := fun w => (Ok (listener w), w).
Definition put_listener (l : my_listener) : M unit :=
  fun w => (Ok (), with_listener l w).

Definition deref (r : ref) : M obj := fun w =>
  match heap w !! r with
  | Some o => (Ok o, w)
  | None => (Stuck, w)
  end.

Definition store (r : ref) (o : obj) : M unit :=
  fun w => (Ok (), with_heap (<[r := o]> (heap w)) w).

Definition alloc (o : obj) : M ref := fun w =>
  let r := fresh (dom (heap w)) in
  (Ok r, with_heap (<[r := o]> (heap w)) w).

(** [try: body except AttributeError: handler] *)
Definition try_except_AttributeError {A} (body handler : M A) : M A := fun w =>
  match body w with
  | (Raise (AttributeError _), w') => handler w'
  | other => other
  end.

(** [for x in xs: body x] *)
Fixpoint for_each {A} (xs : list A) (body : A -> M unit) : M unit :=
  match xs with
  | [] => mret ()
  | x :: xs' => body x;; for_each xs' body
  end.

(** [matrix.<m>(args)]: attribute lookup, then the call. *)
Definition call_matrix (mx : Matrix) (m : method) (args : list Z) : M unit :=
  if has_method mx m then
    emit (DeviceCall m args);;
    match call_result mx m args with
    | Some e => raise e
    | None => mret ()
    end
  else raise (AttributeError (method_name m)).

Definition schedule_update_ha_state (self : ref) : M unit :=
  emit (ScheduleUpdate self).

(** ** class MatrixEntity *)
Module MatrixEntity.

(** The identity attributes ([_attr_unique_id], [_attr_device_info]) are
    computed by the host's helpers and never read back by the module; they
    are left out.  [_attr_state] starts at the class default, [None]. *)
Definition __init__ (name : string) (matrix : Matrix) : M ref :=
  alloc (ObjMatrixEntity {| me_matrix := matrix; me_attr_state := None |}).

Definition fields (self : ref) : M matrix_entity :=
  o ← deref self;
  match o with
  | ObjMatrixEntity e => mret e
  | ObjMatrixOutput _ => stuck
  end.

Definition set_state (self : ref) (state : option MediaPlayerState) : M unit :=
  e ← fields self;
  store self (ObjMatrixEntity (me_with_state state e));;
  schedule_update_ha_state self.

Definition turn_on (self : ref) : M unit :=
  e ← fields self;
  call_matrix (me_matrix e) m_turn_on [].

Definition turn_off (self : ref) : M unit :=
  e ← fields self;
  call_matrix (me_matrix e) m_turn_off [].

End MatrixEntity.

(** ** class MatrixOutput *)
Module MatrixOutput.

Definition __init__ (output_id : Z) (output_name : string) (matrix : Matrix) : M ref :=
  alloc (ObjMatrixOutput
    {| output_id := output_id;
       mo_matrix := matrix;
       mo_attr_source_list := input_names matrix;
       mo_attr_state := None;
       mo_attr_source := None |}).

Definition fields (self : ref) : M matrix_output :=
  o ← deref self;
  match o with
  | ObjMatrixOutput e => mret e
  | ObjMatrixEntity _ => stuck
  end.

Definition set_state (self : ref) (state : option MediaPlayerState) : M unit :=
  e ← fields self;
  store self (ObjMatrixOutput (mo_with_state state e));;
  schedule_update_ha_state self.

(** [self._matrix.inputs_by_id[input_id]] is a subscript: a missing key
    raises [KeyError] before anything is assigned. *)
Definition set_source (self : ref) (input_id : Z) : M unit :=
  e ← fields self;
  match inputs_by_id (mo_matrix e) !! input_id with
  | Some name =>
      store self (ObjMatrixOutput (mo_with_source (Some name) e));;
      schedule_update_ha_state self
  | None => raise (KeyError input_id)
  end.

(** [inputs_by_name.get(source)] gives [None] for a missing name, and the
    test [if input_id:] is on the truth value of what came back. *)
Definition select_source (self : ref) (source : string) : M unit :=
  e ← fields self;
  match inputs_by_name (mo_matrix e) !! source with
  | Some input_id =>
      if truthy_int input_id then
        call_matrix (mo_matrix e) m_change_source [output_id e; input_id]
      else
        log ERROR "Invalid input source: %s, valid sources %s"
  | None =>
      log ERROR "Invalid input source: %s, valid sources %s"
  end.

Definition turn_on (self : ref) : M unit :=
  e ← fields self;
  try_except_AttributeError
    (call_matrix (mo_matrix e) m_send_cec_power_on [output_id e])
    (log ERROR "CEC power on not supported by pyblustream library").

Definition turn_off (self : ref) : M unit :=
  e ← fields self;
  try_except_AttributeError
    (call_matrix (mo_matrix e) m_send_cec_power_off [output_id e])
    (log ERROR "CEC power off not supported by pyblustream library").

Definition volume_up (self : ref) : M unit :=
  e ← fields self;
  try_except_AttributeError
    (call_matrix (mo_matrix e) m_send_cec_volume_up [output_id e])
    (log ERROR "CEC volume up not supported by pyblustream library").

Definition volume_down (self : ref) : M unit :=
  e ← fields self;
  try_except_AttributeError
    (call_matrix (mo_matrix e) m_send_cec_volume_down [output_id e])
    (log ERROR "CEC volume down not supported by pyblustream library").

Definition mute_volume (self : ref) (mute : bool) : M unit :=
  e ← fields self;
  try_except_AttributeError
    (call_matrix (mo_matrix e) m_send_cec_mute [output_id e])
    (log ERROR "CEC mute not supported by pyblustream library").

End MatrixOutput.

(** ** Method calls on an entity held by the listener

    The listener's containers are not typed at run time; the method that
    runs is the one of the object's class.  [MatrixEntity] has no
    [set_source]. *)
Definition invoke_set_state (entity : ref) (state : option MediaPlayerState) : M unit :=
  o ← deref entity;
  match o with
  | ObjMatrixEntity _ => MatrixEntity.set_state entity state
  | ObjMatrixOutput _ => MatrixOutput.set_state entity state
  end.

Definition invoke_set_source (entity : ref) (input_id : Z) : M unit :=
  o ← deref entity;
  match o with
  | ObjMatrixEntity _ => raise (AttributeError "set_source")
  | ObjMatrixOutput _ => MatrixOutput.set_source entity input_id
  end.

(** ** class MyListener *)
Module MyListener.

Definition __init__ : my_listener :=
  {| matrix_output_entities := []; matrix_entities := [] |}.

Definition add_matrix_output_entity (output_id : Z) (entity : ref) : M unit :=
  self ← get_listener;
  put_listener
    {| matrix_output_entities := dict_set output_id entity (matrix_output_entities self);
       matrix_entities := matrix_entities self |}.

Definition add_matrix_entity (entity : ref) : M unit :=
  self ← get_listener;
  put_listener
    {| matrix_output_entities := matrix_output_entities self;
       matrix_entities := matrix_entities self ++ [entity] |}.

(** [.get(output_id)] gives [None] for an unregistered id.  An entity object
    is always true ([if entity:]): neither class defines [__bool__] or
    [__len__]. *)
Definition source_changed (output_id input_id : Z) : M unit :=
  log DEBUG "Source changed Output ID %s changed to input ID: %s";;
  self ← get_listener;
  match dict_get output_id (matrix_output_entities self) with
  | Some entity =>
      log DEBUG "Updating entity for source changed";;
      invoke_set_source entity input_id
  | None => mret ()
  end.

Definition connected : M unit := mret ().

Definition disconnected : M unit :=
  log WARNING "Matrix disconnected";;
  self ← get_listener;
  for_each (matrix_entities self) (fun entity =>
    log DEBUG "Updating %s";;
    invoke_set_state entity None);;
  for_each (dict_values (matrix_output_entities self)) (fun entity =>
    log DEBUG "Updating %s";;
    invoke_set_state entity None).

(** Lines 105-110: the raw value to the tri-state. *)
Definition power_state (power : pyval) : option MediaPlayerState :=
  if py_eq_str power "ON" then Some ON
  else if py_eq_str power "OFF" then Some OFF
  else None.

Definition power_changed (power : pyval) : M unit :=
  let state := power_state power in
  log INFO "Power changed to: %s, state: %s";;
  self ← get_listener;
  for_each (matrix_entities self) (fun entity =>
    log DEBUG "Updating %s";;
    invoke_set_state entity state);;
  for_each (dict_values (matrix_output_entities self)) (fun entity =>
    log DEBUG "Updating %s";;
    invoke_set_state entity state).



End MyListener.

(** ** async_setup_entry

    [hass.data[DOMAIN][entry_id]] and [config_entry.data[CONF_NAME]] arrive
    as the arguments.  The callbacks that [update_status] makes the library
    send later are separate calls of the listener's methods. *)
Fixpoint setup_outputs (matrix : Matrix) (items : list (Z * string))
    (outputs : list ref) : M (list ref) :=
  match items with
  | [] => mret outputs
  | (output_id, output_name) :: items' =>
      log DEBUG "Setting up output entity for output_id: %s, %s";;
      matrix_output ← MatrixOutput.__init__ output_id output_name matrix;
      MyListener.add_matrix_output_entity output_id matrix_output;;
      setup_outputs matrix items' (outputs ++ [matrix_output])
  end.

Definition async_setup_entry (matrix : Matrix) (name : string) : M unit :=
  log DEBUG "Setting up matrix entities for %s";;
  put_listener MyListener.__init__;;
  call_matrix matrix m_register_listener [];;
  log DEBUG "Setting up matrix entity";;
  matrix_entity ← MatrixEntity.__init__ name matrix;
  MyListener.add_matrix_entity matrix_entity;;
  outputs ← setup_outputs matrix (dict_items (outputs_by_id matrix)) [matrix_entity];
  log INFO "Refreshing status after setup";;
  call_matrix matrix m_update_status [];;
  emit (AddEntities outputs).

(** ** The scenario of the specification's section 8 *)
Definition demo_matrix : Matrix :=
  {| inputs_by_id := {[ 1 := "HDMI1"; 2 := "HDMI2" ]};
     inputs_by_name := {[ "HDMI1" := 1; "HDMI2" := 2 ]};
     input_names := ["HDMI1"; "HDMI2"];
     outputs_by_id := [(10, "Living Room"); (11, "Bedroom")];
     has_method := fun _ => true;
     call_result := fun _ _ => None |}.

Definition empty_world : World :=
  {| listener := MyListener.__init__; heap := ∅; trace := [] |}.

Definition demo_world : World :=
  (async_setup_entry demo_matrix "Matrix" empty_world).2.

(** ** Running a computation *)
Definition outcome {A} (m : M A) (w : World) : result A := (m w).1.
Definition exec {A} (m : M A) (w : World) : World := (m w).2.

(** The entities the listener knows: the device-level ones, then the
    per-output ones in dictionary order. *)
Definition registered (w : World) : list ref :=
  matrix_entities (listener w) ++ dict_values (matrix_output_entities (listener w)).

(** Every reference the listener holds denotes an object. *)
Definition wf (w : World) : Prop :=
  Forall (fun r => is_Some (heap w !! r)) (registered w).

(** The displayed power state and source of the entity at [r]. *)
Definition entity_state (w : World) (r : ref) : option (option MediaPlayerState) :=
  obj_state <$> heap w !! r.

Definition entity_source (w : World) (r : ref) : option (option string) :=
  obj_source <$> heap w !! r.


(** The five CEC actions of an output entity. *)
Inductive cec_action :=
  | act_turn_on
  | act_turn_off
  | act_volume_up
  | act_volume_down
  | act_mute_volume (mute : bool).

Definition perform (a : cec_action) (self : ref) : M unit :=
  match a with
  | act_turn_on => MatrixOutput.turn_on self
  | act_turn_off => MatrixOutput.turn_off self
  | act_volume_up => MatrixOutput.volume_up self
  | act_volume_down => MatrixOutput.volume_down self
  | act_mute_volume mute => MatrixOutput.mute_volume self mute
  end.

Definition action_method (a : cec_action) : method :=
  match a with
  | act_turn_on => m_send_cec_power_on
  | act_turn_off => m_send_cec_power_off
  | act_volume_up => m_send_cec_volume_up
  | act_volume_down => m_send_cec_volume_down
  | act_mute_volume _ => m_send_cec_mute
  end.

Definition action_message (a : cec_action) : string :=
  match a with
  | act_turn_on => "CEC power on not supported by pyblustream library"
  | act_turn_off => "CEC power off not supported by pyblustream library"
  | act_volume_up => "CEC volume up not supported by pyblustream library"
  | act_volume_down => "CEC volume down not supported by pyblustream library"
  | act_mute_volume _ => "CEC mute not supported by pyblustream library"
  end.

(** The access or the call of [m] ends in [AttributeError]: the method is
    missing from the library, or raises it itself. *)
Definition raises_AttributeError (mx : Matrix) (m : method) (args : list Z) : Prop :=
  has_method mx m = false ∨ ∃ a, call_result mx m args = Some (AttributeError a).

(** A matrix whose library predates the CEC commands. *)
Definition legacy_matrix : Matrix :=
  {| inputs_by_id := {[ 1 := "HDMI1"; 2 := "HDMI2" ]};
     inputs_by_name := {[ "HDMI1" := 1; "HDMI2" := 2; "AUX" := 0 ]};
     input_names := ["HDMI1"; "HDMI2"; "AUX"];
     outputs_by_id := [(10, "Living Room"); (11, "Bedroom")];
     has_method := fun m =>
       match m with
       | m_register_listener | m_update_status | m_turn_on | m_turn_off
       | m_change_source => true
       | _ => false
       end;
     call_result := fun _ _ => None |}.

Definition legacy_world : World :=
  exec (async_setup_entry legacy_matrix "Matrix") empty_world.

(** The section-8 scenario after the device reported power on. *)
Definition powered_world : World :=
  exec (MyListener.power_changed (PStr "ON")) demo_world.

(** The section-8 scenario with one more entity object for output 10, not
    yet known to the listener. *)
Definition respawned_world : World :=
  exec (MatrixOutput.__init__ 10 "Living Room" demo_matrix) demo_world.

(** ** Vocabulary of the further properties *)

(** The object that [MatrixOutput(output_id, output_name, matrix)] creates,
    and the one that [MatrixEntity(name, matrix)] creates. *)
Definition new_output (matrix : Matrix) (output_id : Z) : obj :=
  ObjMatrixOutput
    {| output_id := output_id;
       mo_matrix := matrix;
       mo_attr_source_list := input_names matrix;
       mo_attr_state := None;
       mo_attr_source := None |}.

Definition new_matrix_entity (matrix : Matrix) : obj :=
  ObjMatrixEntity {| me_matrix := matrix; me_attr_state := None |}.

(** The library has the method and the call returns normally. *)
Definition responds (mx : Matrix) (m : method) (args : list Z) : Prop :=
  has_method mx m = true ∧ call_result mx m args = None.

(** How a call that reached the device ends. *)
Definition call_outcome (mx : Matrix) (m : method) (args : list Z) : result unit :=
  match call_result mx m args with
  | Some e => Raise e
  | None => Ok ()
  end.


Definition is_publication (ev : event) : bool :=
  match ev with
  | AddEntities _ => true
  | _ => false
  end.

(** A matrix whose connection is down: every command that reaches the
    device fails, the status request included. *)
Definition offline_matrix : Matrix :=
  {| inputs_by_id := {[ 1 := "HDMI1"; 2 := "HDMI2" ]};
     inputs_by_name := {[ "HDMI1" := 1; "HDMI2" := 2 ]};
     input_names := ["HDMI1"; "HDMI2"];
     outputs_by_id := [(10, "Living Room"); (11, "Bedroom")];
     has_method := fun _ => true;
     call_result := fun m _ =>
       match m with
       | m_register_listener => None
       | _ => Some (OtherError "ConnectionError")
       end |}.

Definition offline_world : World :=
  exec (async_setup_entry offline_matrix "Matrix") empty_world.




(** * Properties *)

(** ** The monad and the store *)

Ltac unfold_M :=
  unfold mbind, M_bind, mret, M_ret, log, emit, get_listener, put_listener,
    store, raise, stuck, schedule_update_ha_state in *.

Lemma obj_with_state_idemp st o :
  obj_with_state st (obj_with_state st o) = obj_with_state st o.
Proof. by destruct o. Qed.


Lemma fields_output self e w :
  heap w !! self = Some (ObjMatrixOutput e) →
  MatrixOutput.fields self w = (Ok e, w).
Proof.
  intros H. unfold MatrixOutput.fields, deref. unfold_M. by rewrite H.
Qed.

Lemma invoke_set_state_ok r st o w :
  heap w !! r = Some o →
  invoke_set_state r st w =
    (Ok (), {| listener := listener w;
               heap := <[r := obj_with_state st o]> (heap w);
               trace := trace w ++ [ScheduleUpdate r] |}).
Proof.
  intros H. unfold invoke_set_state, MatrixEntity.set_state, MatrixOutput.set_state,
    MatrixEntity.fields, MatrixOutput.fields, deref.
  unfold_M. rewrite H. destruct o; simpl; by rewrite H.
Qed.

Lemma for_each_app {A} (xs ys : list A) (body : A → M unit) w :
  for_each (xs ++ ys) body w = (for_each xs body;; for_each ys body) w.
Proof.
  revert w. induction xs as [|x xs IH]; intros w; simpl.
  - done.
  - unfold mbind, M_bind in *. destruct (body x w) as [[[]| |] w1]; auto.
Qed.

Lemma mbind_Ok {A B} (m : M A) (f : A → M B) w a w1 :
  m w = (Ok a, w1) → (m ≫= f) w = f a w1.
Proof. intros H. unfold mbind, M_bind. by rewrite H. Qed.

Lemma for_each_cons {A} (x : A) xs (body : A → M unit) :
  for_each (x :: xs) body = (body x;; for_each xs body).
Proof. done. Qed.

Lemma log_run lvl fmt w :
  log lvl fmt w = (Ok (), with_trace (trace w ++ [Log lvl fmt]) w).
Proof. done. Qed.

(** ** Broadcasting a state

    One round of the loop body shared by [disconnected] and
    [power_changed], then the whole loop. *)
Lemma notify_ok r st o w :
  heap w !! r = Some o →
  (log DEBUG "Updating %s";; invoke_set_state r st) w =
    (Ok (), {| listener := listener w;
               heap := <[r := obj_with_state st o]> (heap w);
               trace := trace w ++ [Log DEBUG "Updating %s"; ScheduleUpdate r] |}).
Proof.
  intros H. erewrite mbind_Ok by apply log_run.
  erewrite invoke_set_state_ok by exact H. simpl.
  by rewrite <- app_assoc.
Qed.

Lemma broadcast_ok st refs :
  ∀ w, Forall (λ r, is_Some (heap w !! r)) refs →
  ∃ w',
    for_each refs (λ entity, log DEBUG "Updating %s";; invoke_set_state entity st) w
      = (Ok (), w')
    ∧ listener w' = listener w
    ∧ (∀ r, heap w' !! r =
            if decide (r ∈ refs) then obj_with_state st <$> heap w !! r
            else heap w !! r)
    ∧ ∃ t, trace w' = trace w ++ t ∧ Forall (λ ev, is_device_call ev = false) t.
Proof.
  induction refs as [|x refs IH]; intros w Hall.
  - exists w. split_and!; [done..| |].
    + intros r. case_decide as Hin; [by apply elem_of_nil in Hin | done].
    + exists []. by rewrite app_nil_r.
  - apply Forall_cons in Hall as [[o Ho] Hall].
    pose proof (notify_ok x st o w Ho) as Hstep.
    set (w1 := {| listener := listener w;
                  heap := <[x := obj_with_state st o]> (heap w);
                  trace := trace w ++ [Log DEBUG "Updating %s"; ScheduleUpdate x] |})
      in Hstep.
    destruct (IH w1) as (w' & Hrun & Hl & Hh & t & Ht & Hnd).
    { eapply Forall_impl; [exact Hall|]. intros r [o' Hr]. simpl.
      destruct (decide (x = r)) as [->|Hne].
      - rewrite lookup_insert_eq. eauto.
      - rewrite lookup_insert_ne; eauto. }
    exists w'. split_and!.
    + rewrite for_each_cons. by erewrite mbind_Ok by exact Hstep.
    + by rewrite Hl.
    + intros r. rewrite Hh. simpl.
      destruct (decide (x = r)) as [<-|Hne].
      * destruct (decide (x ∈ x :: refs)) as [_|[]]; [|by left].
        rewrite lookup_insert_eq, Ho. simpl.
        case_decide; simpl; by rewrite ?obj_with_state_idemp.
      * rewrite lookup_insert_ne by done.
        destruct (decide (r ∈ refs)) as [Hin|Hin],
          (decide (r ∈ x :: refs)) as [Hin'|Hin']; try done.
        -- destruct Hin'. by right.
        -- apply elem_of_cons in Hin' as [?|?]; congruence.
    + exists ([Log DEBUG "Updating %s"; ScheduleUpdate x] ++ t). split.
      * rewrite Ht. simpl. by rewrite <- !app_assoc.
      * apply Forall_app. split; [|done]. by repeat constructor.
Qed.

(** The two loops of a broadcast, after the opening log record: every
    registered entity gets the state, nothing else in the store moves, and
    the device is not called. *)
Lemma broadcast_registered lvl fmt st w :
  wf w →
  ∃ w',
    (log lvl fmt;;
     self ← get_listener;
     for_each (matrix_entities self) (λ entity,
       log DEBUG "Updating %s";; invoke_set_state entity st);;
     for_each (dict_values (matrix_output_entities self)) (λ entity,
       log DEBUG "Updating %s";; invoke_set_state entity st)) w = (Ok (), w')
    ∧ listener w' = listener w
    ∧ (∀ r, heap w' !! r =
            if decide (r ∈ registered w) then obj_with_state st <$> heap w !! r
            else heap w !! r)
    ∧ ∃ t, trace w' = trace w ++ t ∧ Forall (λ ev, is_device_call ev = false) t.
Proof.
  intros Hwf.
  set (w0 := with_trace (trace w ++ [Log lvl fmt]) w).
  destruct (broadcast_ok st (registered w) w0 Hwf) as (w' & Hrun & Hl & Hh & t & Ht & Hnd).
  exists w'. split_and!; try done.
  - erewrite mbind_Ok by apply log_run.
    erewrite mbind_Ok by reflexivity.
    fold w0. rewrite <- for_each_app. exact Hrun.
  - exists (Log lvl fmt :: t). split.
    + rewrite Ht. simpl. by rewrite <- app_assoc.
    + by constructor.
Qed.

Lemma broadcast_keeps_wf st w w' :
  wf w →
  listener w' = listener w →
  (∀ r, heap w' !! r =
        if decide (r ∈ registered w) then obj_with_state st <$> heap w !! r
        else heap w !! r) →
  wf w'.
Proof.
  intros Hwf Hl Hh. unfold wf, registered in *. rewrite Hl.
  eapply Forall_impl; [exact Hwf|]. intros r [o Ho]. simpl.
  rewrite Hh, Ho. case_decide; simpl; eauto.
Qed.

(** ** Dictionaries *)

Lemma dict_get_set_eq {V} k (v : V) d : dict_get k (dict_set k v d) = Some v.
Proof.
  induction d as [|[k' v'] d IH]; simpl.
  - by rewrite decide_True.
  - destruct (decide (k = k')) as [->|Hne]; simpl.
    + by rewrite decide_True.
    + by rewrite decide_False.
Qed.

Lemma dict_get_set_ne {V} k k' (v : V) d :
  k ≠ k' → dict_get k' (dict_set k v d) = dict_get k' d.
Proof.
  intros Hne. induction d as [|[k0 v0] d IH]; simpl.
  - by rewrite decide_False.
  - destruct (decide (k = k0)) as [->|Hne0]; simpl.
    + by rewrite !decide_False.
    + by rewrite IH.
Qed.



(** ** Source changes *)


Lemma set_source_unknown self e input_id w :
  heap w !! self = Some (ObjMatrixOutput e) →
  inputs_by_id (mo_matrix e) !! input_id = None →
  MatrixOutput.set_source self input_id w = (Raise (KeyError input_id), w).
Proof.
  intros Hself Hin. unfold MatrixOutput.set_source.
  erewrite mbind_Ok by (by apply fields_output).
  by rewrite Hin.
Qed.

Lemma invoke_set_source_output entity e input_id w :
  heap w !! entity = Some (ObjMatrixOutput e) →
  invoke_set_source entity input_id w = MatrixOutput.set_source entity input_id w.
Proof.
  intros H. unfold invoke_set_source.
  erewrite mbind_Ok by (unfold deref; by rewrite H). done.
Qed.

(** What [source_changed] does in each of its branches. *)
Lemma source_changed_unregistered output_id input_id w :
  dict_get output_id (matrix_output_entities (listener w)) = None →
  MyListener.source_changed output_id input_id w =
    (Ok (), with_trace
       (trace w ++ [Log DEBUG "Source changed Output ID %s changed to input ID: %s"]) w).
Proof.
  intros H. unfold MyListener.source_changed.
  erewrite mbind_Ok by apply log_run.
  erewrite mbind_Ok by reflexivity.
  simpl. by rewrite H.
Qed.

Lemma source_changed_registered output_id input_id entity w :
  dict_get output_id (matrix_output_entities (listener w)) = Some entity →
  MyListener.source_changed output_id input_id w =
    invoke_set_source entity input_id
      (with_trace
         (trace w ++ [Log DEBUG "Source changed Output ID %s changed to input ID: %s";
                      Log DEBUG "Updating entity for source changed"]) w).
Proof.
  intros H. unfold MyListener.source_changed.
  erewrite mbind_Ok by apply log_run.
  erewrite mbind_Ok by reflexivity.
  simpl. rewrite H.
  erewrite mbind_Ok by apply log_run.
  unfold with_trace. simpl. by rewrite <- app_assoc.
Qed.


(** * The claims *)






(** C8: [connected] returns normally and changes nothing: the listener, every
    object of the store and the trace (so no update request, no log record,
    no device call) are exactly as before. *)
Theorem connected_noop (w : World) :
  MyListener.connected w = (Ok (), w).
Proof. reflexivity. Qed.









(** ** Selecting a source *)

Lemma select_source_rejects self e source w :
  heap w !! self = Some (ObjMatrixOutput e) →
  (inputs_by_name (mo_matrix e) !! source = None
   ∨ inputs_by_name (mo_matrix e) !! source = Some 0) →
  MatrixOutput.select_source self source w =
    (Ok (), with_trace
       (trace w ++ [Log ERROR "Invalid input source: %s, valid sources %s"]) w).
Proof.
  intros Hself Hname. unfold MatrixOutput.select_source.
  erewrite mbind_Ok by (by apply fields_output).
  by destruct Hname as [-> | ->].
Qed.

(** C5: for an output subscriber and a source name that is not a key of
    [inputs_by_name], [select_source] returns normally; the only thing it
    leaves behind is one error log record, so the device is not called, and
    the store (the displayed source in it) and the listener are unchanged. *)
Theorem select_source_unknown_rejected (w : World) (self : ref)
    (e : matrix_output) (source : string) :
  heap w !! self = Some (ObjMatrixOutput e) →
  inputs_by_name (mo_matrix e) !! source = None →
  ∃ w', MatrixOutput.select_source self source w = (Ok (), w')
    ∧ trace w' = trace w ++ [Log ERROR "Invalid input source: %s, valid sources %s"]
    ∧ heap w' = heap w
    ∧ entity_source w' self = entity_source w self
    ∧ listener w' = listener w.
Proof.
  intros Hself Hname.
  rewrite (select_source_rejects self e source w Hself (or_introl Hname)).
  by eexists.
Qed.

Lemma select_source_unknown_rejected_witness :
  outcome (MatrixOutput.select_source 1%nat "VGA") demo_world = Ok ()
  ∧ trace (exec (MatrixOutput.select_source 1%nat "VGA") demo_world)
    = trace demo_world ++ [Log ERROR "Invalid input source: %s, valid sources %s"]
  ∧ heap (exec (MatrixOutput.select_source 1%nat "VGA") demo_world) = heap demo_world.
Proof.
  destruct (select_source_unknown_rejected demo_world 1%nat
              {| output_id := 10; mo_matrix := demo_matrix;
                 mo_attr_source_list := ["HDMI1"; "HDMI2"];
                 mo_attr_state := None; mo_attr_source := None |}
              "VGA" eq_refl eq_refl)
    as (w' & Hrun & Htrace & Hheap & _).
  unfold outcome, exec. rewrite Hrun. simpl. split_and!; [reflexivity | exact Htrace | exact Hheap].
Defined.

(** C9: for an output subscriber and a source name that [inputs_by_name]
    maps to input id 0, [select_source] takes the rejection branch although
    the name is a key of the table: it returns normally, leaves one error
    log record and nothing else, so [change_source] is not called. *)
Theorem select_source_zero_id_rejected (w : World) (self : ref)
    (e : matrix_output) (source : string) :
  heap w !! self = Some (ObjMatrixOutput e) →
  inputs_by_name (mo_matrix e) !! source = Some 0 →
  ∃ w', MatrixOutput.select_source self source w = (Ok (), w')
    ∧ trace w' = trace w ++ [Log ERROR "Invalid input source: %s, valid sources %s"]
    ∧ heap w' = heap w
    ∧ listener w' = listener w.
Proof.
  intros Hself Hname.
  rewrite (select_source_rejects self e source w Hself (or_intror Hname)).
  by eexists.
Qed.

Lemma select_source_zero_id_rejected_witness :
  inputs_by_name legacy_matrix !! "AUX" = Some 0
  ∧ outcome (MatrixOutput.select_source 1%nat "AUX") legacy_world = Ok ()
  ∧ trace (exec (MatrixOutput.select_source 1%nat "AUX") legacy_world)
    = trace legacy_world ++ [Log ERROR "Invalid input source: %s, valid sources %s"].
Proof.
  destruct (select_source_zero_id_rejected legacy_world 1%nat
              {| output_id := 10; mo_matrix := legacy_matrix;
                 mo_attr_source_list := ["HDMI1"; "HDMI2"; "AUX"];
                 mo_attr_state := None; mo_attr_source := None |}
              "AUX" eq_refl eq_refl)
    as (w' & Hrun & Htrace & _).
  unfold outcome, exec. rewrite Hrun. simpl. split_and!; [reflexivity | reflexivity | exact Htrace].
Defined.

(** ** The CEC actions *)

(** C6: for an output subscriber and each of [turn_on], [turn_off],
    [volume_up], [volume_down] and [mute_volume], when the device call ends
    in [AttributeError] (the library has no such method, or the method
    raises it) the action returns normally; the store and the listener are
    unchanged, and the last thing it leaves behind is the error log record,
    preceded by the device call only when the method existed. *)
Theorem cec_action_unsupported_logged (w : World) (self : ref)
    (e : matrix_output) (a : cec_action) :
  heap w !! self = Some (ObjMatrixOutput e) →
  raises_AttributeError (mo_matrix e) (action_method a) [output_id e] →
  ∃ w', perform a self w = (Ok (), w')
    ∧ heap w' = heap w
    ∧ listener w' = listener w
    ∧ trace w' = trace w
        ++ (if has_method (mo_matrix e) (action_method a)
            then [DeviceCall (action_method a) [output_id e]] else [])
        ++ [Log ERROR (action_message a)].
Proof.
  intros Hself Hraise.
  assert (∀ msg,
    (e0 ← MatrixOutput.fields self;
     try_except_AttributeError
       (call_matrix (mo_matrix e0) (action_method a) [output_id e0])
       (log ERROR msg)) w =
    (Ok (), with_trace (trace w
        ++ (if has_method (mo_matrix e) (action_method a)
            then [DeviceCall (action_method a) [output_id e]] else [])
        ++ [Log ERROR msg]) w)) as Hbody.
  { intros msg. erewrite mbind_Ok by (by apply fields_output).
    unfold try_except_AttributeError, call_matrix.
    destruct (has_method (mo_matrix e) (action_method a)) eqn:Hhas.
    - destruct Hraise as [Hno | [attr Hres]]; [congruence|].
      erewrite mbind_Ok by reflexivity. rewrite Hres. simpl.
      rewrite log_run. unfold with_trace. simpl. by rewrite <- app_assoc.
    - done. }
  exists (with_trace (trace w
        ++ (if has_method (mo_matrix e) (action_method a)
            then [DeviceCall (action_method a) [output_id e]] else [])
        ++ [Log ERROR (action_message a)]) w).
  split; [|done].
  destruct a; apply Hbody.
Qed.

Lemma cec_action_unsupported_logged_witness :
  outcome (MatrixOutput.volume_up 2%nat) legacy_world = Ok ()
  ∧ trace (exec (MatrixOutput.volume_up 2%nat) legacy_world)
    = trace legacy_world
        ++ [Log ERROR "CEC volume up not supported by pyblustream library"].
Proof.
  destruct (cec_action_unsupported_logged legacy_world 2%nat
              {| output_id := 11; mo_matrix := legacy_matrix;
                 mo_attr_source_list := ["HDMI1"; "HDMI2"; "AUX"];
                 mo_attr_state := None; mo_attr_source := None |}
              act_volume_up eq_refl (or_introl eq_refl))
    as (w' & Hrun & _ & _ & Htrace).
  unfold outcome, exec. simpl in Hrun. rewrite Hrun. simpl.
  split; [reflexivity | exact Htrace].
Defined.

(** C10: for an output subscriber, [mute_volume] does the same whatever its
    boolean argument: the two calls are equal as computations, and when the
    library has the method the call they make is [send_cec_mute] on this
    output, the only device call. *)
Theorem mute_argument_ignored (w : World) (self : ref) (m1 m2 : bool) :
  MatrixOutput.mute_volume self m1 w = MatrixOutput.mute_volume self m2 w
  ∧ (∀ e, heap w !! self = Some (ObjMatrixOutput e) →
          has_method (mo_matrix e) m_send_cec_mute = true →
          ∀ m, ∃ t,
            trace (exec (MatrixOutput.mute_volume self m) w)
              = trace w ++ DeviceCall m_send_cec_mute [output_id e] :: t
            ∧ Forall (λ ev, is_device_call ev = false) t).
Proof.
  split; [reflexivity|].
  intros e Hself Hhas m. unfold exec, MatrixOutput.mute_volume.
  erewrite mbind_Ok by (by apply fields_output).
  unfold try_except_AttributeError, call_matrix. rewrite Hhas.
  erewrite mbind_Ok by reflexivity.
  destruct (call_result (mo_matrix e) m_send_cec_mute [output_id e]) as [[k|attr|name]|];
    simpl.
  - exists []. by split.
  - exists [Log ERROR "CEC mute not supported by pyblustream library"].
    split; [by rewrite <- app_assoc | by repeat constructor].
  - exists []. by split.
  - exists []. by split.
Qed.

Lemma mute_argument_ignored_witness :
  MatrixOutput.mute_volume 1%nat true demo_world
    = MatrixOutput.mute_volume 1%nat false demo_world
  ∧ trace (exec (MatrixOutput.mute_volume 1%nat true) demo_world)
    = trace demo_world ++ [DeviceCall m_send_cec_mute [10]].
Proof.
  destruct (mute_argument_ignored demo_world 1%nat true false) as [Heq Hcall].
  split; [exact Heq|].
  destruct (Hcall {| output_id := 10; mo_matrix := demo_matrix;
                     mo_attr_source_list := ["HDMI1"; "HDMI2"];
                     mo_attr_state := None; mo_attr_source := None |}
              eq_refl eq_refl true) as (t & Ht & _).
  reflexivity.
Defined.

(** ** Registering twice *)

Lemma add_matrix_output_entity_run O r w :
  MyListener.add_matrix_output_entity O r w =
    (Ok (), with_listener
       {| matrix_output_entities := dict_set O r (matrix_output_entities (listener w));
          matrix_entities := matrix_entities (listener w) |} w).
Proof. reflexivity. Qed.





(** ** Well-formedness is an invariant

    [wf] is what the theorems on broadcasts assume.  It holds after
    [async_setup_entry], however the device answers, and every callback of
    the listener keeps it. *)







Lemma wf_power_changed power w :
  wf w → wf (exec (MyListener.power_changed power) w).
Proof.
  intros Hwf.
  destruct (broadcast_registered INFO "Power changed to: %s, state: %s"
              (MyListener.power_state power) w Hwf) as (w' & Hrun & Hl & Hh & _).
  unfold exec, MyListener.power_changed. rewrite Hrun.
  by apply (broadcast_keeps_wf (MyListener.power_state power) w).
Qed.

Lemma wf_disconnected w :
  wf w → wf (exec MyListener.disconnected w).
Proof.
  intros Hwf.
  destruct (broadcast_registered WARNING "Matrix disconnected" None w Hwf)
    as (w' & Hrun & Hl & Hh & _).
  unfold exec, MyListener.disconnected. rewrite Hrun.
  by apply (broadcast_keeps_wf None w).
Qed.



(** * Further properties of the module *)

(** ** Source changes *)

Lemma obj_source_with_state st o : obj_source (obj_with_state st o) = obj_source o.
Proof. by destruct o. Qed.

Lemma source_changed_inert (w : World) (O I : Z) :
  listener (exec (MyListener.source_changed O I) w) = listener w
  ∧ (∀ r, entity_state (exec (MyListener.source_changed O I) w) r = entity_state w r)
  ∧ ∃ t, trace (exec (MyListener.source_changed O I) w) = trace w ++ t
         ∧ Forall (λ ev, is_device_call ev = false) t.
Proof.
  unfold exec, entity_state.
  destruct (dict_get O (matrix_output_entities (listener w))) as [r2|] eqn:Hreg.
  - rewrite (source_changed_registered _ _ _ _ Hreg).
    unfold invoke_set_source, MatrixOutput.set_source, MatrixOutput.fields, deref.
    unfold_M. simpl.
    destruct (heap w !! r2) as [[e|e]|] eqn:Hh; simpl; rewrite ?Hh; simpl.
    + split_and!; [done..|]. eexists. split; [done|]. by repeat constructor.
    + destruct (inputs_by_id (mo_matrix e) !! I); simpl.
      * split_and!; [done| |].
        -- intros r. destruct (decide (r2 = r)) as [<-|Hne].
           ++ by rewrite lookup_insert_eq, Hh.
           ++ by rewrite lookup_insert_ne.
        -- eexists. rewrite <- app_assoc. split; [done|]. by repeat constructor.
      * split_and!; [done..|]. eexists. split; [done|]. by repeat constructor.
    + split_and!; [done..|]. eexists. split; [done|]. by repeat constructor.
  - rewrite (source_changed_unregistered _ _ _ Hreg). simpl.
    split_and!; [done..|]. eexists. split; [done|]. by repeat constructor.
Qed.

(** X1: whatever its arguments and however it ends, [source_changed] leaves
    the listener and the power state of every entity as they were, and
    never calls the device. *)
Theorem source_changed_keeps_power (w : World) (O I : Z) :
  listener (exec (MyListener.source_changed O I) w) = listener w
  ∧ (∀ r, entity_state (exec (MyListener.source_changed O I) w) r = entity_state w r)
  ∧ ∃ t, trace (exec (MyListener.source_changed O I) w) = trace w ++ t
         ∧ Forall (λ ev, is_device_call ev = false) t.
Proof. apply source_changed_inert. Qed.

(** X2: for an output id whose registered subscriber is an output entity and
    an input id that is not in the catalog, [source_changed] ends in
    [KeyError] for that id, raised to the library that sent the callback;
    the two debug records are all it leaves, and the store and the listener
    are unchanged. *)
Theorem source_changed_unknown_input_raises (w : World) (O I : Z) (r : ref)
    (e : matrix_output) :
  dict_get O (matrix_output_entities (listener w)) = Some r →
  heap w !! r = Some (ObjMatrixOutput e) →
  inputs_by_id (mo_matrix e) !! I = None →
  MyListener.source_changed O I w =
    (Raise (KeyError I),
     with_trace
       (trace w ++ [Log DEBUG "Source changed Output ID %s changed to input ID: %s";
                    Log DEBUG "Updating entity for source changed"]) w).
Proof.
  intros Hreg Hobj Hcat.
  rewrite (source_changed_registered _ _ _ _ Hreg).
  erewrite invoke_set_source_output by exact Hobj.
  by erewrite set_source_unknown by (exact Hobj || exact Hcat).
Qed.

Lemma source_changed_unknown_input_raises_witness :
  outcome (MyListener.source_changed 11 9) demo_world = Raise (KeyError 9)
  ∧ heap (exec (MyListener.source_changed 11 9) demo_world) = heap demo_world.
Proof.
  pose proof (source_changed_unknown_input_raises demo_world 11 9 2%nat
                {| output_id := 11; mo_matrix := demo_matrix;
                   mo_attr_source_list := ["HDMI1"; "HDMI2"];
                   mo_attr_state := None; mo_attr_source := None |}
                eq_refl eq_refl eq_refl) as Hrun.
  unfold outcome, exec. rewrite Hrun. by split.
Defined.



(** ** Commands forwarded to the device *)

Lemma call_matrix_run mx m args w :
  has_method mx m = true →
  call_matrix mx m args w =
    (call_outcome mx m args, with_trace (trace w ++ [DeviceCall m args]) w).
Proof.
  intros Hhas. unfold call_matrix, call_outcome. rewrite Hhas.
  erewrite mbind_Ok by reflexivity.
  by destruct (call_result mx m args).
Qed.




(** X5: for an output subscriber and each of the five CEC actions, when the
    library has the method and the call does not end in [AttributeError],
    the action makes exactly one device call, the CEC command with this
    output's id, and ends as the call ends: normally, or with the call's
    exception, which is not caught.  Nothing is logged and the store is
    untouched; in particular [turn_on] and [turn_off] do not set the
    displayed power state. *)
Theorem cec_action_forwards (w : World) (self : ref) (e : matrix_output)
    (a : cec_action) :
  heap w !! self = Some (ObjMatrixOutput e) →
  has_method (mo_matrix e) (action_method a) = true →
  (∀ attr, call_result (mo_matrix e) (action_method a) [output_id e]
           ≠ Some (AttributeError attr)) →
  perform a self w =
    (call_outcome (mo_matrix e) (action_method a) [output_id e],
     with_trace (trace w ++ [DeviceCall (action_method a) [output_id e]]) w).
Proof.
  intros Hself Hhas Hnot.
  assert (∀ msg,
    (e0 ← MatrixOutput.fields self;
     try_except_AttributeError
       (call_matrix (mo_matrix e0) (action_method a) [output_id e0])
       (log ERROR msg)) w =
    (call_outcome (mo_matrix e) (action_method a) [output_id e],
     with_trace (trace w ++ [DeviceCall (action_method a) [output_id e]]) w)) as Hbody.
  { intros msg. erewrite mbind_Ok by (by apply fields_output).
    unfold try_except_AttributeError. rewrite (call_matrix_run _ _ _ _ Hhas).
    unfold call_outcome.
    destruct (call_result (mo_matrix e) (action_method a) [output_id e])
      as [[k|attr|name]|] eqn:Hres; try done.
    by destruct (Hnot attr). }
  destruct a; apply Hbody.
Qed.

Lemma cec_action_forwards_witness :
  MatrixOutput.turn_on 1%nat powered_world =
    (Ok (), with_trace (trace powered_world ++ [DeviceCall m_send_cec_power_on [10]])
              powered_world)
  ∧ outcome (MatrixOutput.volume_down 2%nat) offline_world
    = Raise (OtherError "ConnectionError").
Proof.
  split.
  - apply (cec_action_forwards powered_world 1%nat
             {| output_id := 10; mo_matrix := demo_matrix;
                mo_attr_source_list := ["HDMI1"; "HDMI2"];
                mo_attr_state := Some ON; mo_attr_source := None |}
             act_turn_on eq_refl eq_refl).
    intros attr. discriminate.
  - unfold outcome.
    change (MatrixOutput.volume_down 2%nat) with (perform act_volume_down 2%nat).
    rewrite (cec_action_forwards offline_world 2%nat
               {| output_id := 11; mo_matrix := offline_matrix;
                  mo_attr_source_list := ["HDMI1"; "HDMI2"];
                  mo_attr_state := None; mo_attr_source := None |}
               act_volume_down eq_refl eq_refl); [reflexivity|].
    intros attr. discriminate.
Defined.



(** ** Broadcasts *)





(** X8: in a well-formed listener state, [power_changed] and [disconnected]
    change no displayed source, and leave every object that is not
    registered with the listener exactly as it was. *)
Theorem broadcast_frame (w : World) (power : pyval) :
  wf w →
  (∀ r, entity_source (exec (MyListener.power_changed power) w) r = entity_source w r)
  ∧ (∀ r, r ∉ registered w →
          heap (exec (MyListener.power_changed power) w) !! r = heap w !! r)
  ∧ (∀ r, entity_source (exec MyListener.disconnected w) r = entity_source w r)
  ∧ (∀ r, r ∉ registered w →
          heap (exec MyListener.disconnected w) !! r = heap w !! r).
Proof.
  intros Hwf.
  destruct (broadcast_registered INFO "Power changed to: %s, state: %s"
              (MyListener.power_state power) w Hwf) as (w1 & Hrun1 & _ & Hh1 & _).
  destruct (broadcast_registered WARNING "Matrix disconnected" None w Hwf)
    as (w2 & Hrun2 & _ & Hh2 & _).
  unfold exec, entity_source, MyListener.power_changed, MyListener.disconnected.
  rewrite Hrun1, Hrun2. simpl.
  split_and!; intros r.
  - rewrite Hh1. case_decide; [|done].
    destruct (heap w !! r); simpl; [|done]. by rewrite obj_source_with_state.
  - intros Hnot. by rewrite Hh1, decide_False.
  - rewrite Hh2. case_decide; [|done].
    destruct (heap w !! r); simpl; [|done]. by rewrite obj_source_with_state.
  - intros Hnot. by rewrite Hh2, decide_False.
Qed.

Lemma broadcast_frame_witness :
  entity_source
    (exec MyListener.disconnected (exec (MyListener.source_changed 10 1) respawned_world))
    1%nat = Some (Some "HDMI1")
  ∧ heap (exec MyListener.disconnected (exec (MyListener.source_changed 10 1) respawned_world))
      !! 3%nat
    = heap respawned_world !! 3%nat.
Proof.
  assert (wf (exec (MyListener.source_changed 10 1) respawned_world)) as Hwf.
  { apply (bool_decide_unpack _). by vm_compute. }
  destruct (broadcast_frame _ PNone Hwf) as (_ & _ & Hsrc & Hrest).
  split.
  - rewrite Hsrc. reflexivity.
  - rewrite Hrest; [reflexivity|].
    apply (bool_decide_unpack _). by vm_compute.
Defined.







(** ** Registration *)

Lemma dict_set_fresh {V} k (v : V) d :
  k ∉ d.*1 → dict_set k v d = d ++ [(k, v)].
Proof.
  induction d as [|[k' v'] d IH]; simpl; [done|].
  intros Hnot. apply not_elem_of_cons in Hnot as [Hne Hnot].
  rewrite decide_False by done. by rewrite IH.
Qed.

Lemma dict_set_keys_present {V} k (v : V) d :
  k ∈ d.*1 → (dict_set k v d).*1 = d.*1.
Proof.
  induction d as [|[k' v'] d IH]; simpl.
  - by intros ?%elem_of_nil.
  - intros Hin. case_decide; simpl; [done|].
    apply elem_of_cons in Hin as [?|Hin]; [done|]. f_equal. by apply IH.
Qed.

Lemma dict_set_keys_NoDup {V} k (v : V) d :
  NoDup d.*1 → NoDup (dict_set k v d).*1.
Proof.
  intros Hnd. destruct (decide (k ∈ d.*1)) as [Hin|Hnot].
  - by rewrite dict_set_keys_present.
  - rewrite dict_set_fresh, fmap_app by done. simpl.
    apply NoDup_app. split_and!; [done| |apply NoDup_singleton].
    intros x Hx ->%list_elem_of_singleton. done.
Qed.

(** X10: [add_matrix_output_entity O r] makes [r] the entry of [O] and
    leaves the entry of every other output id as it was; the device-level
    list, the store and the trace are unchanged, and the dictionary's keys
    stay pairwise distinct. *)
Theorem add_matrix_output_entity_lookup (w : World) (O O' : Z) (r : ref) :
  outcome (MyListener.add_matrix_output_entity O r) w = Ok ()
  ∧ dict_get O
      (matrix_output_entities (listener (exec (MyListener.add_matrix_output_entity O r) w)))
    = Some r
  ∧ (O' ≠ O →
     dict_get O'
       (matrix_output_entities (listener (exec (MyListener.add_matrix_output_entity O r) w)))
     = dict_get O' (matrix_output_entities (listener w)))
  ∧ matrix_entities (listener (exec (MyListener.add_matrix_output_entity O r) w))
    = matrix_entities (listener w)
  ∧ heap (exec (MyListener.add_matrix_output_entity O r) w) = heap w
  ∧ trace (exec (MyListener.add_matrix_output_entity O r) w) = trace w
  ∧ (NoDup (matrix_output_entities (listener w)).*1 →
     NoDup (matrix_output_entities
              (listener (exec (MyListener.add_matrix_output_entity O r) w))).*1).
Proof.
  unfold outcome, exec. rewrite add_matrix_output_entity_run. simpl.
  split_and!; try done.
  - apply dict_get_set_eq.
  - intros Hne. by apply dict_get_set_ne.
  - apply dict_set_keys_NoDup.
Qed.

Lemma add_matrix_output_entity_lookup_witness :
  dict_get 11
    (matrix_output_entities
       (listener (exec (MyListener.add_matrix_output_entity 10 3%nat) respawned_world)))
    = Some 2%nat
  ∧ NoDup (matrix_output_entities
             (listener (exec (MyListener.add_matrix_output_entity 10 3%nat)
                          respawned_world))).*1.
Proof.
  destruct (add_matrix_output_entity_lookup respawned_world 10 11 3%nat)
    as (_ & _ & Hother & _ & _ & _ & Hnodup).
  split.
  - rewrite Hother by lia. reflexivity.
  - apply Hnodup. apply (bool_decide_unpack _). by vm_compute.
Defined.

(** ** Setup *)

(** The loop of [async_setup_entry] over the outputs. *)
Lemma setup_outputs_spec matrix items :
  ∀ outputs w,
  ∃ rs w',
    setup_outputs matrix items outputs w = (Ok (outputs ++ rs), w')
    ∧ length rs = length items
    ∧ matrix_entities (listener w') = matrix_entities (listener w)
    ∧ heap w ⊆ heap w'
    ∧ Forall2 (λ O r, heap w' !! r = Some (new_output matrix O) ∧ heap w !! r = None)
        items.*1 rs
    ∧ trace w' = trace w
        ++ replicate (length items)
             (Log DEBUG "Setting up output entity for output_id: %s, %s")
    ∧ (NoDup items.*1 →
       (∀ k, k ∈ items.*1 → k ∉ (matrix_output_entities (listener w)).*1) →
       matrix_output_entities (listener w')
         = matrix_output_entities (listener w) ++ zip items.*1 rs).
Proof.
  induction items as [|[O output_name] items IH]; intros outputs w.
  - exists [], w. simpl. rewrite !app_nil_r. by split_and!.
  - simpl setup_outputs.
    erewrite mbind_Ok by apply log_run.
    erewrite mbind_Ok by reflexivity.
    erewrite mbind_Ok by reflexivity.
    set (r := fresh (dom (heap w))).
    assert (heap w !! r = None) as Hfresh
      by (apply not_elem_of_dom, is_fresh).
    match goal with |- context [setup_outputs _ _ _ ?w1] => set (ws := w1) end.
    assert (heap ws = <[r := new_output matrix O]> (heap w)) as Hheap by reflexivity.
    assert (matrix_output_entities (listener ws)
            = dict_set O r (matrix_output_entities (listener w))) as Hmoe by reflexivity.
    assert (trace ws = trace w
              ++ [Log DEBUG "Setting up output entity for output_id: %s, %s"])
      as Htrace by reflexivity.
    assert (matrix_entities (listener ws) = matrix_entities (listener w)) as Hme
      by reflexivity.
    assert (heap w ⊆ heap ws) as Hsub
      by (rewrite Hheap; by apply insert_subseteq).
    destruct (IH (outputs ++ [r]) ws)
      as (rs & w' & Hrun & Hlen & Hme' & Hsub' & Hobjs & Htrace' & Hdict).
    exists (r :: rs), w'. split_and!.
    + change (setup_outputs matrix items (outputs ++ [r]) ws
              = (Ok (outputs ++ r :: rs), w')).
      rewrite Hrun. by rewrite <- app_assoc.
    + simpl. by rewrite Hlen.
    + by rewrite Hme'.
    + by transitivity (heap ws).
    + simpl. constructor.
      * split; [|done]. eapply lookup_weaken; [|exact Hsub'].
        rewrite Hheap. apply lookup_insert_eq.
      * eapply Forall2_impl; [exact Hobjs|]. intros O' r' [Hnew Hnone].
        split; [done|].
        destruct (heap w !! r') as [o|] eqn:Hr'; [|done].
        eapply lookup_weaken in Hr'; [|exact Hsub]. congruence.
    + rewrite Htrace', Htrace. simpl. by rewrite <- app_assoc.
    + simpl. intros Hnd Hdisj.
      apply NoDup_cons in Hnd as [HO Hnd].
      rewrite Hdict; [|done|].
      * rewrite Hmoe, dict_set_fresh by (apply Hdisj; by left).
        by rewrite <- app_assoc.
      * intros k Hk. rewrite Hmoe, dict_set_fresh by (apply Hdisj; by left).
        rewrite fmap_app. simpl. intros [Hin|Hin]%elem_of_app.
        -- apply (Hdisj k); [by right | done].
        -- apply list_elem_of_singleton in Hin. by subst.
Qed.

Lemma call_matrix_responds mx m args w :
  responds mx m args →
  call_matrix mx m args w = (Ok (), with_trace (trace w ++ [DeviceCall m args]) w).
Proof.
  intros [Hhas Hres]. rewrite call_matrix_run by done.
  unfold call_outcome. by rewrite Hres.
Qed.

(** [async_setup_entry] up to the status request, when the library accepts
    the listener. *)
Lemma async_setup_entry_core matrix name w :
  responds matrix m_register_listener [] →
  ∃ me rs w1,
    async_setup_entry matrix name w =
      (call_matrix matrix m_update_status [];; emit (AddEntities (me :: rs)))
        (with_trace (trace w1 ++ [Log INFO "Refreshing status after setup"]) w1)
    ∧ matrix_entities (listener w1) = [me]
    ∧ (NoDup (outputs_by_id matrix).*1 →
       matrix_output_entities (listener w1) = zip (outputs_by_id matrix).*1 rs)
    ∧ length rs = length (outputs_by_id matrix)
    ∧ heap w ⊆ heap w1
    ∧ heap w !! me = None
    ∧ heap w1 !! me = Some (new_matrix_entity matrix)
    ∧ Forall2 (λ O r, heap w1 !! r = Some (new_output matrix O) ∧ heap w !! r = None)
        (outputs_by_id matrix).*1 rs
    ∧ trace w1 = trace w
        ++ [Log DEBUG "Setting up matrix entities for %s";
            DeviceCall m_register_listener [];
            Log DEBUG "Setting up matrix entity"]
        ++ replicate (length (outputs_by_id matrix))
             (Log DEBUG "Setting up output entity for output_id: %s, %s").
Proof.
  intros Hreg. unfold async_setup_entry.
  erewrite mbind_Ok by apply log_run.
  erewrite mbind_Ok by reflexivity.
  erewrite mbind_Ok by (by apply call_matrix_responds).
  erewrite mbind_Ok by apply log_run.
  erewrite mbind_Ok by reflexivity.
  erewrite mbind_Ok by reflexivity.
  set (me := fresh (dom (heap w))).
  assert (heap w !! me = None) as Hfresh by (apply not_elem_of_dom, is_fresh).
  match goal with |- context [(setup_outputs _ _ _ ≫= _) ?w0] => set (ws := w0) end.
  assert (heap ws = <[me := new_matrix_entity matrix]> (heap w)) as Hheap by reflexivity.
  assert (listener ws = {| matrix_output_entities := []; matrix_entities := [me] |})
    as Hlistener by reflexivity.
  assert (trace ws = trace w
            ++ [Log DEBUG "Setting up matrix entities for %s";
                DeviceCall m_register_listener [];
                Log DEBUG "Setting up matrix entity"]) as Htrace.
  { simpl. by rewrite <- !app_assoc. }
  destruct (setup_outputs_spec matrix (dict_items (outputs_by_id matrix)) [me] ws)
    as (rs & w1 & Hrun & Hlen & Hme & Hsub & Hobjs & Htrace1 & Hdict).
  change (setup_outputs matrix (dict_items (outputs_by_id matrix)) [fresh (dom (heap _))] ws)
    with (setup_outputs matrix (dict_items (outputs_by_id matrix)) [me] ws).
  erewrite mbind_Ok by exact Hrun.
  erewrite mbind_Ok by apply log_run.
  assert (heap w ⊆ heap ws) as Hsub0 by (rewrite Hheap; by apply insert_subseteq).
  exists me, rs, w1. unfold dict_items in *. split_and!.
  - done.
  - by rewrite Hme, Hlistener.
  - intros Hnd. rewrite Hdict, Hlistener; [done..|].
    rewrite Hlistener. simpl. intros k _. apply not_elem_of_nil.
  - done.
  - by transitivity (heap ws).
  - done.
  - eapply lookup_weaken; [|exact Hsub]. rewrite Hheap. apply lookup_insert_eq.
  - eapply Forall2_impl; [exact Hobjs|]. intros O r [Hnew Hnone].
    split; [done|].
    destruct (heap w !! r) as [o|] eqn:Hr; [|done].
    eapply lookup_weaken in Hr; [|exact Hsub0]. congruence.
  - rewrite Htrace1, Htrace. by rewrite <- app_assoc.
Qed.

Lemma call_matrix_not_responds mx m args w :
  ¬ responds mx m args →
  ∃ e w',
    call_matrix mx m args w = (Raise e, w')
    ∧ listener w' = listener w
    ∧ heap w' = heap w
    ∧ ∃ t, trace w' = trace w ++ t ∧ Forall (λ ev, is_publication ev = false) t.
Proof.
  intros Hnot. unfold call_matrix.
  destruct (has_method mx m) eqn:Hhas.
  - erewrite mbind_Ok by reflexivity.
    destruct (call_result mx m args) as [e|] eqn:Hres.
    + exists e. eexists. split; [reflexivity|]. simpl. split_and!; [done..|].
      eexists. split; [done|]. by repeat constructor.
    + destruct Hnot. by split.
  - eexists _, w. split; [reflexivity|]. split_and!; [done..|].
    exists []. by rewrite app_nil_r.
Qed.

Lemma mbind_Raise {A B} (m : M A) (f : A → M B) w e w1 :
  m w = (Raise e, w1) → (m ≫= f) w = (Raise e, w1).
Proof. intros H. unfold mbind, M_bind. by rewrite H. Qed.







(** X13: when the device does not answer [register_listener] or
    [update_status] (the method is missing or the call raises), setup ends
    in an exception and nothing is published to the host.  If it is
    [register_listener] that fails, no entity has been created or
    registered. *)
Theorem async_setup_entry_failure (matrix : Matrix) (name : string) (w : World) :
  ¬ (responds matrix m_register_listener [] ∧ responds matrix m_update_status []) →
  (∃ e, outcome (async_setup_entry matrix name) w = Raise e)
  ∧ (∃ t, trace (exec (async_setup_entry matrix name) w) = trace w ++ t
          ∧ Forall (λ ev, is_publication ev = false) t)
  ∧ (¬ responds matrix m_register_listener [] →
     heap (exec (async_setup_entry matrix name) w) = heap w
     ∧ registered (exec (async_setup_entry matrix name) w) = []).
Proof.
  intros Hnot.
  assert (responds matrix m_register_listener [] ∨ ¬ responds matrix m_register_listener [])
    as [Hreg|Hreg].
  { unfold responds.
    destruct (has_method matrix m_register_listener),
      (call_result matrix m_register_listener []); try (right; by intros [? ?]).
    by left. }
  - assert (¬ responds matrix m_update_status []) as Hupd by (intros ?; by apply Hnot).
    destruct (async_setup_entry_core matrix name w Hreg)
      as (me & rs & w1 & Hrun & _ & _ & _ & _ & _ & _ & _ & Htrace).
    destruct (call_matrix_not_responds matrix m_update_status []
                (with_trace (trace w1 ++ [Log INFO "Refreshing status after setup"]) w1)
                Hupd) as (e & w' & Hcall & _ & _ & t & Ht & Hpub).
    unfold outcome, exec. rewrite Hrun. erewrite mbind_Raise by exact Hcall. simpl.
    split_and!; [by exists e | | done].
    eexists. rewrite Ht. simpl. rewrite Htrace, <- !app_assoc. split; [reflexivity|].
    apply Forall_app. split; [by repeat constructor|].
    apply Forall_app. split.
    + by apply Forall_replicate.
    + apply Forall_cons. by split.
  - unfold outcome, exec, async_setup_entry.
    erewrite mbind_Ok by apply log_run.
    erewrite mbind_Ok by reflexivity.
    match goal with |- context [(call_matrix _ _ _ ≫= _) ?w0] =>
      destruct (call_matrix_not_responds matrix m_register_listener [] w0 Hreg)
        as (e & w' & Hcall & Hl & Hh & t & Ht & Hpub)
    end.
    erewrite mbind_Raise by exact Hcall. simpl in *.
    split_and!.
    + by exists e.
    + eexists. rewrite Ht, <- app_assoc. split; [reflexivity|].
      apply Forall_cons. by split.
    + intros _. split; [done|]. unfold registered. by rewrite Hl.
Qed.

Lemma async_setup_entry_failure_witness :
  outcome (async_setup_entry offline_matrix "Matrix") empty_world
    = Raise (OtherError "ConnectionError")
  ∧ ∃ t, trace offline_world = [] ++ t ∧ Forall (λ ev, is_publication ev = false) t.
Proof.
  destruct (async_setup_entry_failure offline_matrix "Matrix" empty_world)
    as (_ & Hpub & _).
  { intros [_ [_ Hres]]. discriminate Hres. }
  split; [reflexivity | exact Hpub].
Defined.



(** ** Any sequence of callbacks *)



